(** * Constant literals of the protoc parser: src/constant.ts

    A shallow embedding of the [Constant] parse node (constructor,
    [toProto], [toJSON], [accept] and the static [parse]) together with the pieces of
    the JavaScript run time it relies on ([String.prototype.slice],
    [Number], [Number.isFinite], [Number.isNaN]).

    Strings are [String.string]; one [ascii] stands for one code unit of the
    JavaScript string.  The scanner is a mutable object in the source; here
    every operation that advances it returns the advanced scanner. *)

From Stdlib Require Import Bool Arith NArith ZArith Lia List.
From Stdlib Require Import Ascii String.
Import ListNotations.

Local Open Scope string_scope.

(** ** The JavaScript built-ins used by the constructor *)

Module JS.

(** [s.slice(start, end)]: negative indices count from the end of the
    string, both indices are clamped to [0 .. length], and an empty range
    gives the empty string. *)
Definition slice (s : string) (start end_ : Z) : string :=
  let len := Z.of_nat (String.length s) in
  let from := if (start <? 0)%Z then Z.max (len + start) 0 else Z.min start len in
  let to := if (end_ <? 0)%Z then Z.max (len + end_) 0 else Z.min end_ len in
  let span := Z.max (to - from) 0 in
  substring (Z.to_nat from) (Z.to_nat span) s.

(** A Number value, that is a double.  [Finite neg m e] is
    [(-1)^neg * m * 2^e] with [m < 2^53] and [e >= -1074]; [m >= 2^52]
    unless [e = -1074] (the subnormal numbers and the two zeros), so that
    every finite double is written in one way only. *)
Inductive number : Type :=
| Finite (neg : bool) (m : N) (e : Z)
| Infinity (neg : bool)
| NaN.

Definition isFinite (x : number) : bool :=
  match x with Finite _ _ _ => true | _ => false end.

Definition isNaN (x : number) : bool :=
  match x with NaN => true | _ => false end.

(** StrWhiteSpaceChar, for the code units below 256: TAB, LF, VT, FF, CR,
    SP and NBSP. *)
Definition is_white_space (c : ascii) : bool :=
  let n := N_of_ascii c in
  ((9 <=? n) && (n <=? 13) || (n =? 32) || (n =? 160))%N.

Fixpoint trim_start (s : string) : string :=
  match s with
  | String c r => if is_white_space c then trim_start r else s
  | EmptyString => EmptyString
  end.

Fixpoint trim_end (s : string) : string :=
  match s with
  | String c r =>
      match trim_end r with
      | EmptyString => if is_white_space c then EmptyString else String c EmptyString
      | r' => String c r'
      end
  | EmptyString => EmptyString
  end.

Definition trim (s : string) : string := trim_end (trim_start s).

(** The value of a digit in the given base, letters in either case. *)
Definition digit_of (base : N) (c : ascii) : option N :=
  let n := N_of_ascii c in
  let d :=
    if ((48 <=? n) && (n <=? 57))%N then Some (n - 48)%N
    else if ((97 <=? n) && (n <=? 102))%N then Some (n - 87)%N
    else if ((65 <=? n) && (n <=? 70))%N then Some (n - 55)%N
    else None in
  match d with
  | Some v => if (v <? base)%N then Some v else None
  | None => None
  end.

(** The longest prefix of digits and what follows it. *)
Fixpoint span_digits (base : N) (s : string) : string * string :=
  match s with
  | String c r =>
      match digit_of base c with
      | Some _ => let '(ds, rest) := span_digits base r in (String c ds, rest)
      | None => (EmptyString, s)
      end
  | EmptyString => (EmptyString, EmptyString)
  end.

Fixpoint digits_value (base : N) (acc : N) (s : string) : N :=
  match s with
  | String c r =>
      match digit_of base c with
      | Some v => digits_value base (acc * base + v)%N r
      | None => acc
      end
  | EmptyString => acc
  end.

Definition is_empty (s : string) : bool :=
  match s with EmptyString => true | _ => false end.

(** ExponentPart_opt, which must reach the end of the text. *)
Definition exponent_part (s : string) : option Z :=
  match s with
  | EmptyString => Some 0%Z
  | String c r =>
      if (Ascii.eqb c "e" || Ascii.eqb c "E")%bool then
        let '(neg, r') :=
          match r with
          | String "+" u => (false, u)
          | String "-" u => (true, u)
          | _ => (false, r)
          end in
        let '(ds, rest) := span_digits 10 r' in
        if (negb (is_empty ds) && is_empty rest)%bool then
          let v := Z.of_N (digits_value 10 0 ds) in
          Some (if neg then (- v)%Z else v)
        else None
      else None
  end.

(** StrUnsignedDecimalLiteral other than [Infinity]: mantissa digits and
    decimal exponent. *)
Definition unsigned_decimal (s : string) : option (N * Z) :=
  let '(ip, r1) := span_digits 10 s in
  let '(fp, r2) :=
    match r1 with
    | String "." r => span_digits 10 r
    | _ => (EmptyString, r1)
    end in
  if (is_empty ip && is_empty fp)%bool then None
  else
    match exponent_part r2 with
    | Some e => Some (digits_value 10 0 (ip ++ fp), (e - Z.of_nat (String.length fp))%Z)
    | None => None
    end.

(** NonDecimalIntegerLiteral: [0x], [0o] or [0b] (either case) and at
    least one digit of that base, nothing after. *)
Definition non_decimal (s : string) : option N :=
  match s with
  | String "0" (String p r) =>
      let base :=
        if (Ascii.eqb p "x" || Ascii.eqb p "X")%bool then Some 16%N
        else if (Ascii.eqb p "o" || Ascii.eqb p "O")%bool then Some 8%N
        else if (Ascii.eqb p "b" || Ascii.eqb p "B")%bool then Some 2%N
        else None in
      match base with
      | Some b =>
          let '(ds, rest) := span_digits b r in
          if (negb (is_empty ds) && is_empty rest)%bool
          then Some (digits_value b 0 ds) else None
      | None => None
      end
  | _ => None
  end.

(** Magnitudes from [2^1024 - 2^970] on round to an infinity. *)
Definition overflow_bound : N := (2 ^ 1024 - 2 ^ 970)%N.

(** The least binary exponent of a double. *)
Definition min_exponent : Z := (-1074)%Z.

(** The fraction [a / (b * 2^k)] with an integer numerator and
    denominator. *)
Definition scale (a b k : Z) : Z * Z :=
  if (0 <=? k)%Z then (a, (b * 2 ^ k)%Z) else ((a * 2 ^ (- k))%Z, b).

(** The mantissa and the binary exponent of the double nearest to the
    positive fraction [a / b], ties going to the even mantissa.  The
    exponent is the one that puts the mantissa in [2^52 .. 2^53), or
    [-1074] when that would lie below it; rounding up to [2^53] moves to
    the next exponent. *)
Definition nearest (a b : Z) : Z * Z :=
  let k0 := (Z.log2 a - Z.log2 b - 52)%Z in
  let '(a0, b0) := scale a b k0 in
  let k1 := if (2 ^ 52 * b0 <=? a0)%Z then k0 else (k0 - 1)%Z in
  let k := Z.max k1 min_exponent in
  let '(a1, b1) := scale a b k in
  let q := (a1 / b1)%Z in
  let r := (a1 mod b1)%Z in
  let q' :=
    if ((b1 <? 2 * r)%Z || ((2 * r =? b1)%Z && Z.odd q))%bool
    then (q + 1)%Z else q in
  if (q' =? 2 ^ 53)%Z then ((2 ^ 52)%Z, (k + 1)%Z) else (q', k).

(** The double nearest to [(-1)^neg * m * 10^e]: an infinity from the
    overflow bound on, a zero for [m = 0], the rounded fraction
    otherwise. *)
Definition round_to_double (neg : bool) (m : N) (e : Z) : number :=
  let too_big :=
    if (0 <=? e)%Z then (overflow_bound <=? m * 10 ^ Z.to_N e)%N
    else (overflow_bound * 10 ^ Z.to_N (- e) <=? m)%N in
  if too_big then Infinity neg
  else if (m =? 0)%N then Finite neg 0 min_exponent
  else
    let '(a, b) :=
      if (0 <=? e)%Z then ((Z.of_N m * 10 ^ e)%Z, 1%Z)
      else (Z.of_N m, (10 ^ (- e))%Z) in
    let '(q, k) := nearest a b in
    Finite neg (Z.to_N q) k.

(** [x] is the double whose value is the integer [n]. *)
Definition is_integer (x : number) (n : N) : Prop :=
  match x with
  | Finite false m e => (e <= 0)%Z /\ m = (n * 2 ^ Z.to_N (- e))%N
  | _ => False
  end.

(** [Number(s)] for a string argument (StringToNumber). *)
Definition Number (s : string) : number :=
  let t := trim s in
  if is_empty t then Finite false 0 min_exponent
  else
    match non_decimal t with
    | Some m => round_to_double false m 0
    | None =>
        let '(neg, u) :=
          match t with
          | String "+" u => (false, u)
          | String "-" u => (true, u)
          | _ => (false, t)
          end in
        if String.eqb u "Infinity" then Infinity neg
        else
          match unsigned_decimal u with
          | Some (m, e) => round_to_double neg m e
          | None => NaN
          end
    end.

End JS.

(** ** Data model *)

(** The token tags of the scanner (deps.ts).  The source names [string],
    [identifier], [int], [float], [token] and [keyword]; [other] stands for
    every further tag the scanner has (end of input, comments, ...). *)
Module Token.
Inductive t : Type :=
| string | identifier | int | float | token | keyword
| other (tag : nat).

Definition eqb (a b : t) : bool :=
  match a, b with
  | string, string | identifier, identifier | int, int
  | float, float | token, token | keyword, keyword => true
  | other m, other n => Nat.eqb m n
  | _, _ => false
  end.
End Token.

(** The union type of the [literalType] field. *)
Module LiteralType.
Inductive t : Type := identifier | string | int | float | boolean.
End LiteralType.

(** [boolean | string | number | null]. *)
Inductive Value : Type :=
| VBoolean (b : bool)
| VString (s : string)
| VNumber (n : JS.number)
| VNull.

(** A [line, column] pair. *)
Definition Pos : Type := (nat * nat)%type.

(** The fields of a [Constant] object. *)
Record Constant : Type := mkConstant {
  literalType : LiteralType.t;
  raw : string;
  start : Pos;
  end_ : Pos;
  value : Value
}.

(** The constructor: [value] starts as [raw] and is converted by
    [literalType]. *)
Definition new_Constant (literalType : LiteralType.t) (raw : string)
    (start end_ : Pos) : Constant :=
  let value :=
    match literalType with
    | LiteralType.int | LiteralType.float =>
        let n := JS.Number raw in
        if (negb (JS.isFinite n) || JS.isNaN n)%bool then VNull else VNumber n
    | LiteralType.string => VString (JS.slice raw 1 (-1))
    | LiteralType.boolean => VBoolean (String.eqb raw "true")
    | LiteralType.identifier => VString raw
    end in
  mkConstant literalType raw start end_ value.

(** The default positions of the constructor's optional arguments. *)
Definition default_pos : Pos := (0, 0).

Definition toProto (c : Constant) : string := raw c.

Record ConstantJSON : Type := mkConstantJSON {
  json_type : string;
  json_start : Pos;
  json_end : Pos;
  json_literalType : LiteralType.t;
  json_raw : string;
  json_value : Value
}.

Definition toJSON (c : Constant) : ConstantJSON :=
  mkConstantJSON "Constant" (start c) (end_ c) (literalType c) (raw c) (value c).

(** ** Exceptions *)

(** What a call can throw: the [TokenError] of deps.ts, built from the
    scanner and the offending token, or an error of the token source's
    own. *)
Inductive Thrown (S : Type) : Type :=
| TokenError (scanner : S) (token : Token.t)
| SourceError (message : string).
Arguments TokenError {S} scanner token.
Arguments SourceError {S} message.

Inductive Result (S A : Type) : Type :=
| Ok (a : A)
| Throw (e : Thrown S).
Arguments Ok {S A} a.
Arguments Throw {S A} e.

Definition bind {S A B} (m : Result S A) (k : A -> Result S B) : Result S B :=
  match m with
  | Ok a => k a
  | Throw e => Throw e
  end.

Notation "'let*' p ':=' m 'in' k" := (bind m (fun p => k))
  (at level 10, p pattern, m at level 200, k at level 200).

(** ** The token source *)

(** Modelled from the spec: the token source of section 6, that is the
    [Scanner] re-exported by deps.ts and the helper [expectFullIdent] of
    util.ts, neither of which is in src/.  [scan] advances the scanner and
    returns the tag of the token read; [contents], [startPos] and [endPos]
    are the text of the current token and the positions around it;
    [expectFullIdent s anchored] consumes a dotted identifier continuation,
    [anchored] telling whether it must begin with a separator.  Every
    operation that advances may fail. *)
Class TokenSource (S : Type) : Type := {
  scan : S -> Result S (Token.t * S);
  contents : S -> string;
  startPos : S -> Pos;
  endPos : S -> Pos;
  expectFullIdent : S -> bool -> Result S S
}.

(** ** [Constant.parse] *)

Section Parse.
Context {S : Type} `{TokenSource S}.

(** The chain of tests on the first token.  It yields the literal type,
    the text kept for the node and the scanner as the branch leaves it.
    [value] is read from the scanner right after the first [scan] and is
    only replaced in the signed [inf] branch; [type] keeps its initial
    ["string"] where a branch does not assign it. *)
Definition classify (token : Token.t) (s1 : S)
    : Result S (LiteralType.t * string * S) :=
  let value := contents s1 in
  let type := LiteralType.string in
  if Token.eqb token Token.string then
    Ok (LiteralType.string, value, s1)
  else if (Token.eqb token Token.identifier && String.eqb value "false"
           || String.eqb value "true")%bool then
    Ok (LiteralType.boolean, value, s1)
  else if Token.eqb token Token.identifier then
    let* s2 := expectFullIdent s1 false in
    Ok (LiteralType.identifier, value, s2)
  else if Token.eqb token Token.int then
    Ok (LiteralType.int, value, s1)
  else if Token.eqb token Token.float then
    Ok (LiteralType.float, value, s1)
  else if (Token.eqb token Token.token
           && (String.eqb value "-" || String.eqb value "+"))%bool then
    let sign := value in
    let* (token', s2) := scan s1 in
    if (Token.eqb token' Token.keyword && String.eqb (contents s2) "inf")%bool then
      Ok (LiteralType.int, sign ++ contents s2, s2)
    else
      Ok (type, value, s2)
  else if (Token.eqb token Token.keyword
           && (String.eqb value "inf" || String.eqb value "nan"))%bool then
    Ok (LiteralType.int, value, s1)
  else
    Throw (TokenError s1 token).

(** [Constant.parse(scanner)]: the node and the scanner after the call. *)
Definition parse (scanner : S) : Result S (Constant * S) :=
  let* (token, s1) := scan scanner in
  let start := startPos s1 in
  let* (type, value, s') := classify token s1 in
  Ok (new_Constant type value start (endPos s'), s').

End Parse.

(** ** A token source over a list of tokens *)

(** One scanned token: its tag, its text and the positions around it. *)
Record Tok : Type := mkTok {
  tok_kind : Token.t;
  tok_text : string;
  tok_start : Pos;
  tok_end : Pos
}.

(** The scanner's cursor: the token read last and the tokens still ahead. *)
Record ListScanner : Type := mkListScanner {
  current : option Tok;
  input : list Tok
}.

Definition ls_scan (s : ListScanner) : Result ListScanner (Token.t * ListScanner) :=
  match input s with
  | t :: rest => Ok (tok_kind t, mkListScanner (Some t) rest)
  | [] => Throw (SourceError "unexpected end of input")
  end.

Definition ls_contents (s : ListScanner) : string :=
  match current s with Some t => tok_text t | None => EmptyString end.

Definition ls_startPos (s : ListScanner) : Pos :=
  match current s with Some t => tok_start t | None => default_pos end.

Definition ls_endPos (s : ListScanner) : Pos :=
  match current s with Some t => tok_end t | None => default_pos end.

(** The separator of a dotted name. *)
Definition is_separator (t : Tok) : bool :=
  (Token.eqb (tok_kind t) Token.token && String.eqb (tok_text t) ".")%bool.

(** Zero or more groups of a separator and an identifier; [cur] is the
    token read last. *)
Fixpoint continuation (cur : Tok) (l : list Tok) {struct l}
    : Result ListScanner ListScanner :=
  match l with
  | d :: l' =>
      if is_separator d then
        match l' with
        | i :: l'' =>
            if Token.eqb (tok_kind i) Token.identifier then continuation i l''
            else Throw (TokenError (mkListScanner (Some i) l'') (tok_kind i))
        | [] => Throw (SourceError "unexpected end of input")
        end
      else Ok (mkListScanner (Some cur) l)
  | [] => Ok (mkListScanner (Some cur) [])
  end.

(** Modelled from the spec: [expectFullIdent] of util.ts, which is not in
    src/, as section 6 (e) words it: it consumes a dotted identifier
    continuation after the current token, and with [anchored] set the
    continuation must begin with a separator. *)
Definition ls_expectFullIdent (s : ListScanner) (anchored : bool)
    : Result ListScanner ListScanner :=
  match current s with
  | Some cur =>
      match input s with
      | d :: _ =>
          if (anchored && negb (is_separator d))%bool
          then Throw (TokenError (mkListScanner (Some d) (tl (input s))) (tok_kind d))
          else continuation cur (input s)
      | [] =>
          if anchored then Throw (SourceError "unexpected end of input")
          else continuation cur []
      end
  | None => Throw (SourceError "no current token")
  end.

#[export] Instance ListTokenSource : TokenSource ListScanner := {
  scan := ls_scan;
  contents := ls_contents;
  startPos := ls_startPos;
  endPos := ls_endPos;
  expectFullIdent := ls_expectFullIdent
}.

(** A scanner about to read the given tokens. *)
Definition scanner_of (l : list Tok) : ListScanner := mkListScanner None l.

(** The tokens read between two states of one scanner, and their text. *)
Definition consumed (s s' : ListScanner) : list Tok :=
  firstn (List.length (input s) - List.length (input s')) (input s).

Definition source_text (s s' : ListScanner) : string :=
  String.concat EmptyString (map tok_text (consumed s s')).

(** Tokens laid out on line 1, each starting where the previous one ends. *)
Fixpoint layout (col : nat) (l : list (Token.t * string)) : list Tok :=
  match l with
  | (k, txt) :: r =>
      mkTok k txt (1, col) (1, col + String.length txt)
      :: layout (col + String.length txt) r
  | [] => []
  end.

Definition scanner_on (l : list (Token.t * string)) : ListScanner :=
  scanner_of (layout 1 l).

(** ** What a value is at run time *)

Inductive RuntimeType : Type := TBoolean | TString | TNumber | TNull.

Definition runtime_type (v : Value) : RuntimeType :=
  match v with
  | VBoolean _ => TBoolean
  | VString _ => TString
  | VNumber _ => TNumber
  | VNull => TNull
  end.

(** Removing the first and removing the last character of a string; both
    leave the empty string as it is. *)
Definition drop_first (s : string) : string :=
  match s with String _ r => r | EmptyString => EmptyString end.

Fixpoint drop_last (s : string) : string :=
  match s with
  | String c EmptyString => EmptyString
  | String c r => String c (drop_last r)
  | EmptyString => EmptyString
  end.

(** ** The shape of a successful classification *)

(** What a successful [classify] did with the scanner, by branch: it read
    nothing more; it ran the continuation helper; it read the keyword [inf]
    after a sign; it read something else after a sign. *)
Inductive Consumption {S : Type} `{TokenSource S} (token : Token.t) (s1 : S)
    : LiteralType.t -> string -> S -> Prop :=
| one_token (type : LiteralType.t) :
    type <> LiteralType.identifier ->
    ~ (token = Token.token /\ (contents s1 = "-" \/ contents s1 = "+")) ->
    Consumption token s1 type (contents s1) s1
| identifier_continuation (s2 : S) :
    token = Token.identifier ->
    expectFullIdent s1 false = Ok s2 ->
    Consumption token s1 LiteralType.identifier (contents s1) s2
| signed_inf (s2 : S) :
    token = Token.token ->
    contents s1 = "-" \/ contents s1 = "+" ->
    scan s1 = Ok (Token.keyword, s2) ->
    contents s2 = "inf" ->
    Consumption token s1 LiteralType.int (contents s1 ++ "inf") s2
| sign_alone (token' : Token.t) (s2 : S) :
    token = Token.token ->
    contents s1 = "-" \/ contents s1 = "+" ->
    scan s1 = Ok (token', s2) ->
    ~ (token' = Token.keyword /\ contents s2 = "inf") ->
    Consumption token s1 LiteralType.string (contents s1) s2.

(** The first token ahead is a sign and the one after it is not the
    keyword [inf]. *)
Definition sign_without_inf (s : ListScanner) : bool :=
  match input s with
  | t :: t' :: _ =>
      Token.eqb (tok_kind t) Token.token
      && (String.eqb (tok_text t) "-" || String.eqb (tok_text t) "+")
      && negb (Token.eqb (tok_kind t') Token.keyword
               && String.eqb (tok_text t') "inf")
  | _ => false
  end.

(** The double quote. *)
Definition dquote : ascii := ascii_of_nat 34.

(** The backslash. *)
Definition backslash : ascii := ascii_of_nat 92.

(** The scanner after it has read one more token. *)
Definition advance (s : ListScanner) : ListScanner :=
  match input s with
  | t :: rest => mkListScanner (Some t) rest
  | [] => s
  end.

(** ** Sample inputs *)

(** [my.Enum.VALUE;] with one token for each segment and separator. *)
Definition dotted_identifier : ListScanner :=
  scanner_on [(Token.identifier, "my"); (Token.token, ".");
              (Token.identifier, "Enum"); (Token.token, ".");
              (Token.identifier, "VALUE"); (Token.token, ";")].

(** [-5]: a sign and an integer literal. *)
Definition sign_then_int : ListScanner :=
  scanner_on [(Token.token, "-"); (Token.int, "5")].

(** [-inf]: a sign and the keyword. *)
Definition minus_inf : ListScanner :=
  scanner_on [(Token.token, "-"); (Token.keyword, "inf")].

(** [true] read as a keyword token. *)
Definition keyword_true : ListScanner :=
  scanner_on [(Token.keyword, "true")].

(** [true] and [float] read as identifier tokens. *)
Definition identifier_true : ListScanner :=
  scanner_on [(Token.identifier, "true")].

Definition identifier_float : ListScanner :=
  scanner_on [(Token.identifier, "float")].

(** ** [accept] *)

(** What a call of a visitor hook does to the world around it: it returns,
    leaving a new world, or it throws. *)
Inductive Outcome (E W : Type) : Type :=
| Returned (w : W)
| Raised (e : E).
Arguments Returned {E W} w.
Arguments Raised {E W} e.

(** The two hooks [accept] looks for, each of which a visitor may lack
    (visitor.ts). *)
Record Visitor (W E : Type) : Type := mkVisitor {
  visit : option (Constant -> W -> Outcome E W);
  visitConstant : option (Constant -> W -> Outcome E W)
}.
Arguments mkVisitor {W E} visit visitConstant.
Arguments visit {W E} v.
Arguments visitConstant {W E} v.

(** [hook?.(node)]: the call is skipped when the hook is missing. *)
Definition optional_call {W E : Type}
    (hook : option (Constant -> W -> Outcome E W)) (node : Constant) (w : W)
    : Outcome E W :=
  match hook with
  | Some f => f node w
  | None => Returned w
  end.

Definition accept {W E : Type} (node : Constant) (visitor : Visitor W E) (w : W)
    : Outcome E W :=
  match optional_call (visit visitor) node w with
  | Returned w1 => optional_call (visitConstant visitor) node w1
  | Raised e => Raised e
  end.

(** ** Decimal digit strings *)

Definition is_decimal_digit (c : ascii) : bool :=
  match JS.digit_of 10 c with Some _ => true | None => false end.

Fixpoint all_decimal_digits (s : string) : bool :=
  match s with
  | String c r => is_decimal_digit c && all_decimal_digits r
  | EmptyString => true
  end.

(** ** More sample inputs *)

(** A stray opening brace. *)
Definition stray_brace : ListScanner := scanner_on [(Token.token, "{")].

(** The string literal [hello] between double quotes. *)
Definition quoted_hello : ListScanner :=
  scanner_on [(Token.string, String dquote ("hello" ++ String dquote EmptyString))].

(** The integer literal [42]. *)
Definition int_42 : ListScanner := scanner_on [(Token.int, "42")].

(** The bare keyword [nan]. *)
Definition keyword_nan : ListScanner := scanner_on [(Token.keyword, "nan")].

(** No input at all, and a sign with nothing after it. *)
Definition empty_input : ListScanner := scanner_on [].

Definition sign_only : ListScanner := scanner_on [(Token.token, "+")].

(** A visitor that counts the calls of its kind-specific hook and whose
    generic hook throws. *)
Definition throwing_visitor : Visitor nat string :=
  mkVisitor (Some (fun _ _ => Raised "stop"))
            (Some (fun _ n => Returned (S n))).

(** ** Basic facts *)

Lemma Token_eqb_spec (a b : Token.t) : reflect (a = b) (Token.eqb a b).
Proof.
  destruct a as [| | | | | |m], b as [| | | | | |n]; simpl;
    try (constructor; congruence).
  destruct (Nat.eqb_spec m n); constructor; congruence.
Qed.

Lemma Token_eqb_refl (a : Token.t) : Token.eqb a a = true.
Proof. destruct (Token_eqb_spec a a); congruence. Qed.

Lemma Token_eqb_neq (a b : Token.t) : a <> b -> Token.eqb a b = false.
Proof. destruct (Token_eqb_spec a b); congruence. Qed.

Lemma bind_Ok {S A B} (m : Result S A) (k : A -> Result S B) (b : B) :
  bind m k = Ok b -> exists a, m = Ok a /\ k a = Ok b.
Proof. destruct m as [a|e]; simpl; [eauto | discriminate]. Qed.

Ltac string_tests :=
  repeat match goal with
  | H : ?x <> ?y |- context [String.eqb ?x ?y] =>
      rewrite (proj2 (String.eqb_neq x y) H)
  | H : ?x = ?y |- context [String.eqb ?x ?y] =>
      rewrite (proj2 (String.eqb_eq x y) H)
  end.

Section ParseFacts.
Context {S : Type} `{TokenSource S}.

(** Once the first token is read, [parse] is the classification of that
    token followed by the constructor call. *)
Lemma parse_after_scan (scanner s1 : S) (token : Token.t) :
  scan scanner = Ok (token, s1) ->
  parse scanner =
    (let* (type, value, s') := classify token s1 in
     Ok (new_Constant type value (startPos s1) (endPos s'), s')).
Proof. intros Hscan. unfold parse. rewrite Hscan. reflexivity. Qed.

(** A failing first [scan] is passed through. *)
Lemma parse_scan_throws (scanner : S) (e : Thrown S) :
  scan scanner = Throw e -> parse scanner = Throw e.
Proof. intros Hscan. unfold parse. rewrite Hscan. reflexivity. Qed.

(** Every node [parse] returns was built by the constructor, from a start
    position read after the first [scan] and the end position of the
    scanner it returns. *)
Lemma parse_constructs (scanner s' : S) (node : Constant) :
  parse scanner = Ok (node, s') ->
  exists token s1 type text,
    scan scanner = Ok (token, s1) /\
    classify token s1 = Ok (type, text, s') /\
    node = new_Constant type text (startPos s1) (endPos s').
Proof.
  unfold parse. intros Hp.
  apply bind_Ok in Hp. destruct Hp as [[token s1] [Hscan Hp]].
  apply bind_Ok in Hp. destruct Hp as [[[type text] s2] [Hcl Hp]].
  injection Hp as <- <-.
  exists token, s1, type, text. auto.
Qed.

(** Every successful classification has one of the four shapes. *)
Lemma classify_shape (token : Token.t) (s1 s' : S) (type : LiteralType.t)
    (text : string) :
  classify token s1 = Ok (type, text, s') ->
  Consumption token s1 type text s'.
Proof.
  unfold classify.
  destruct (Token_eqb_spec token Token.string) as [->|Hstr].
  { intros [= <- <- <-]. apply one_token; [discriminate|].
    intros [Hk _]; discriminate. }
  destruct (Token_eqb_spec token Token.identifier) as [->|Hid]; simpl.
  { destruct (String.eqb (contents s1) "false" || String.eqb (contents s1) "true")%bool.
    - intros [= <- <- <-]. apply one_token; [discriminate|].
      intros [Hk _]; discriminate.
    - destruct (expectFullIdent s1 false) as [s2|e] eqn:Hfull; simpl;
        [|discriminate].
      intros [= <- <- <-]. now apply identifier_continuation. }
  destruct (String.eqb_spec (contents s1) "true") as [Htrue|Htrue].
  { intros [= <- <- <-]. apply one_token; [discriminate|].
    intros [_ [Hs|Hs]]; rewrite Htrue in Hs; discriminate. }
  destruct (Token_eqb_spec token Token.int) as [->|Hint].
  { intros [= <- <- <-]. apply one_token; [discriminate|].
    intros [Hk _]; discriminate. }
  destruct (Token_eqb_spec token Token.float) as [->|Hfl].
  { intros [= <- <- <-]. apply one_token; [discriminate|].
    intros [Hk _]; discriminate. }
  destruct (Token_eqb_spec token Token.token) as [->|Htok]; simpl.
  { destruct (String.eqb (contents s1) "-" || String.eqb (contents s1) "+")%bool
      eqn:Hsign.
    - assert (Hs : contents s1 = "-" \/ contents s1 = "+").
      { apply Bool.orb_true_iff in Hsign.
        destruct Hsign as [Hs|Hs]; apply String.eqb_eq in Hs; auto. }
      destruct (scan s1) as [[token' s2]|e] eqn:Hscan2; simpl; [|discriminate].
      destruct (Token_eqb_spec token' Token.keyword) as [->|Hk]; simpl.
      + destruct (String.eqb_spec (contents s2) "inf") as [Hinf|Hinf].
        * intros [= <- <- <-]. rewrite Hinf. now apply signed_inf.
        * intros [= <- <- <-]. apply (sign_alone _ _ Token.keyword); auto.
          intros [_ Hc]; contradiction.
      + intros [= <- <- <-]. apply (sign_alone _ _ token'); auto.
        intros [Hc _]; contradiction.
    - discriminate. }
  destruct (Token.eqb token Token.keyword
            && (String.eqb (contents s1) "inf" || String.eqb (contents s1) "nan"))%bool.
  { intros [= <- <- <-]. apply one_token; [discriminate|].
    intros [Hk _]; contradiction. }
  discriminate.
Qed.

End ParseFacts.

(** ** The branches of [parse] *)

Section Branches.
Context {S : Type} `{TokenSource S}.

(** C6.  An identifier token with text [true] gives a [boolean] node with
    value [true], one with text [false] a [boolean] node with value
    [false]; and whatever the text, the constructor gives a [boolean] node
    the value of the test of its text against [true]. *)
Theorem parse_boolean (scanner s1 : S) :
  scan scanner = Ok (Token.identifier, s1) ->
  (contents s1 = "true" ->
   parse scanner =
     Ok (mkConstant LiteralType.boolean "true" (startPos s1) (endPos s1)
           (VBoolean true), s1)) /\
  (contents s1 = "false" ->
   parse scanner =
     Ok (mkConstant LiteralType.boolean "false" (startPos s1) (endPos s1)
           (VBoolean false), s1)) /\
  (forall text st en,
     value (new_Constant LiteralType.boolean text st en)
     = VBoolean (String.eqb text "true")).
Proof.
  intros Hscan. rewrite (parse_after_scan _ _ _ Hscan).
  unfold classify. simpl Token.eqb.
  repeat split.
  - intros ->. reflexivity.
  - intros ->. reflexivity.
Qed.

(** C10.  A first token that is not a string literal and has the text
    [true] gives a [boolean] node whatever its tag; with the text [false]
    the node is [boolean] exactly when the tag is [identifier]. *)
Theorem parse_true_any_tag (scanner s1 : S) (token : Token.t) :
  scan scanner = Ok (token, s1) ->
  token <> Token.string ->
  (contents s1 = "true" ->
   parse scanner =
     Ok (mkConstant LiteralType.boolean "true" (startPos s1) (endPos s1)
           (VBoolean true), s1)) /\
  (contents s1 = "false" ->
   ((exists node s', parse scanner = Ok (node, s') /\
                     literalType node = LiteralType.boolean)
    <-> token = Token.identifier)).
Proof.
  intros Hscan Hstr. rewrite (parse_after_scan _ _ _ Hscan).
  unfold classify. rewrite (Token_eqb_neq _ _ Hstr).
  split.
  - intros ->. rewrite Bool.orb_true_r. reflexivity.
  - intros ->. split.
    + intros (node & s' & Hp & Hty).
      destruct token; try reflexivity; try contradiction;
        simpl in Hp; try discriminate; injection Hp as <- <-; discriminate.
    + intros ->. simpl. eauto.
Qed.

(** C8.  A sign token followed by the keyword [inf] gives an [int] node
    whose text is the sign followed by [inf], whose value is [null], and
    whose end is the end position after the second token. *)
Theorem parse_signed_inf (scanner s1 s2 : S) :
  scan scanner = Ok (Token.token, s1) ->
  contents s1 = "-" \/ contents s1 = "+" ->
  scan s1 = Ok (Token.keyword, s2) ->
  contents s2 = "inf" ->
  parse scanner =
    Ok (mkConstant LiteralType.int (contents s1 ++ "inf") (startPos s1)
          (endPos s2) VNull, s2).
Proof.
  intros Hscan Hsign Hscan2 Hinf. rewrite (parse_after_scan _ _ _ Hscan).
  unfold classify. simpl Token.eqb.
  destruct Hsign as [Hs|Hs]; rewrite Hs; simpl; rewrite Hscan2; simpl;
    rewrite Hinf; reflexivity.
Qed.

(** C9.  A sign token followed by anything but the keyword [inf] is not
    rejected: the node keeps the initial type [string], its text is the
    sign alone, its value the empty string, and both tokens are consumed. *)
Theorem parse_sign_without_inf (scanner s1 s2 : S) (token' : Token.t) :
  scan scanner = Ok (Token.token, s1) ->
  contents s1 = "-" \/ contents s1 = "+" ->
  scan s1 = Ok (token', s2) ->
  ~ (token' = Token.keyword /\ contents s2 = "inf") ->
  parse scanner =
    Ok (mkConstant LiteralType.string (contents s1) (startPos s1) (endPos s2)
          (VString EmptyString), s2).
Proof.
  intros Hscan Hsign Hscan2 Hnot. rewrite (parse_after_scan _ _ _ Hscan).
  unfold classify. simpl Token.eqb.
  assert (Htest : (Token.eqb token' Token.keyword
                   && String.eqb (contents s2) "inf")%bool = false).
  { destruct (Token_eqb_spec token' Token.keyword) as [Hk|Hk]; [|reflexivity].
    destruct (String.eqb_spec (contents s2) "inf") as [Hi|Hi]; [|reflexivity].
    exfalso. auto. }
  destruct Hsign as [Hs|Hs]; rewrite Hs; simpl; rewrite Hscan2; simpl;
    rewrite Htest; reflexivity.
Qed.

(** X15.  The identifier branch.  An identifier token whose text is neither
    [true] nor [false] makes [parse] call the continuation helper; the node
    has type [identifier], its text and its value are the text of that
    first token as read before the helper ran, and its end is the end
    position of the scanner the helper leaves.  A failure of the helper is
    passed through. *)
Lemma parse_identifier (scanner s1 : S) :
  scan scanner = Ok (Token.identifier, s1) ->
  contents s1 <> "true" ->
  contents s1 <> "false" ->
  (forall s2, expectFullIdent s1 false = Ok s2 ->
     parse scanner =
       Ok (mkConstant LiteralType.identifier (contents s1) (startPos s1)
             (endPos s2) (VString (contents s1)), s2)) /\
  (forall e, expectFullIdent s1 false = Throw e -> parse scanner = Throw e).
Proof.
  intros Hscan Ht Hf. rewrite (parse_after_scan _ _ _ Hscan).
  unfold classify. simpl Token.eqb. string_tests. simpl.
  split; intros r Hr; rewrite Hr; reflexivity.
Qed.

(** X14.  The nearby form of the rejection rule: a first token that no
    branch takes, and whose text is not [true], is rejected with a
    [TokenError] that carries the scanner and that token. *)
Lemma parse_rejects (scanner s1 : S) (token : Token.t) :
  scan scanner = Ok (token, s1) ->
  token <> Token.string -> token <> Token.identifier ->
  token <> Token.int -> token <> Token.float ->
  ~ (token = Token.token /\ (contents s1 = "-" \/ contents s1 = "+")) ->
  ~ (token = Token.keyword /\ (contents s1 = "inf" \/ contents s1 = "nan")) ->
  contents s1 <> "true" ->
  parse scanner = Throw (TokenError s1 token).
Proof.
  intros Hscan H1 H2 H3 H4 Hsign Hkw Htrue.
  rewrite (parse_after_scan _ _ _ Hscan). unfold classify.
  rewrite !Token_eqb_neq by assumption. string_tests. simpl.
  destruct (Token_eqb_spec token Token.token) as [Ht|Ht]; simpl.
  - destruct (String.eqb_spec (contents s1) "-");
      [exfalso; apply Hsign; auto|].
    destruct (String.eqb_spec (contents s1) "+");
      [exfalso; apply Hsign; auto|].
    simpl. subst token. reflexivity.
  - destruct (Token_eqb_spec token Token.keyword) as [Hk|Hk]; simpl;
      [|reflexivity].
    destruct (String.eqb_spec (contents s1) "inf");
      [exfalso; apply Hkw; auto|].
    destruct (String.eqb_spec (contents s1) "nan");
      [exfalso; apply Hkw; auto|].
    reflexivity.
Qed.

End Branches.

(** ** The constructor *)

Lemma substring_drop_last (s : string) :
  substring 0 (Nat.pred (String.length s)) s = drop_last s.
Proof.
  induction s as [|c s IH]; [reflexivity|].
  destruct s as [|d s]; [reflexivity|].
  change (String c (substring 0 (Nat.pred (String.length (String d s))) (String d s))
          = String c (drop_last (String d s))).
  now rewrite IH.
Qed.

(** [slice(1, -1)] removes the first and the last character. *)
Lemma slice_1_m1 (s : string) : JS.slice s 1 (-1) = drop_last (drop_first s).
Proof.
  destruct s as [|c s]; [reflexivity|].
  unfold JS.slice. simpl drop_first.
  change (1 <? 0)%Z with false. change (-1 <? 0)%Z with true. cbv iota.
  set (len := Z.of_nat (String.length (String c s))).
  assert (Hlen : len = (Z.of_nat (String.length s) + 1)%Z)
    by (unfold len; simpl String.length; lia).
  replace (Z.to_nat (Z.min 1 len)) with 1 by lia.
  replace (Z.to_nat (Z.max (Z.max (len + -1) 0 - Z.min 1 len) 0))
    with (Nat.pred (String.length s)) by lia.
  simpl substring. apply substring_drop_last.
Qed.

Lemma drop_last_app (mid : string) (b : ascii) :
  drop_last (mid ++ String b EmptyString) = mid.
Proof.
  induction mid as [|c mid IH]; [reflexivity|].
  simpl. rewrite IH. destruct mid; reflexivity.
Qed.

(** C7.  The value of a [string] node is its text without the first and
    the last character, whatever lies between them: a text made of a
    delimiter, an interior and a delimiter has the interior as its value,
    unchanged, a backslash included. *)
Theorem string_value_strips_delimiters :
  (forall text st en,
     value (new_Constant LiteralType.string text st en)
     = VString (drop_last (drop_first text))) /\
  (forall (a b : ascii) (interior : string) st en,
     value (new_Constant LiteralType.string
              (String a (interior ++ String b EmptyString)) st en)
     = VString interior) /\
  value (new_Constant LiteralType.string
           (String dquote (String backslash (String "n" (String dquote EmptyString))))
           default_pos default_pos)
  = VString (String backslash (String "n" EmptyString)).
Proof.
  assert (Hall : forall text st en,
     value (new_Constant LiteralType.string text st en)
     = VString (drop_last (drop_first text))).
  { intros text st en. simpl. now rewrite slice_1_m1. }
  split; [exact Hall|]. split; [|reflexivity].
  intros a b interior st en. rewrite Hall. simpl drop_first.
  now rewrite drop_last_app.
Qed.

(** C3.  A node built with type [int] or [float] keeps that type; its value
    is the number read from its text when that number is finite and not
    NaN, and [null] otherwise.  The keywords [inf] and [nan], a signed
    [inf], an overflowing literal and malformed digits all end in [null];
    the constructor is a total function, so none of them is an error. *)
Theorem numeric_value_policy (type : LiteralType.t) (text : string) (st en : Pos) :
  type = LiteralType.int \/ type = LiteralType.float ->
  literalType (new_Constant type text st en) = type /\
  raw (new_Constant type text st en) = text /\
  (JS.isFinite (JS.Number text) = true /\ JS.isNaN (JS.Number text) = false ->
   value (new_Constant type text st en) = VNumber (JS.Number text)) /\
  (~ (JS.isFinite (JS.Number text) = true /\ JS.isNaN (JS.Number text) = false) ->
   value (new_Constant type text st en) = VNull) /\
  (forall lexeme,
     In lexeme ["inf"; "nan"; "-inf"; "+inf"; "1e400"; "-1e400"; "12abc"; "0x"; "1e"] ->
     value (new_Constant type lexeme st en) = VNull).
Proof.
  intros Hty.
  assert (Hval : value (new_Constant type text st en)
                 = if (negb (JS.isFinite (JS.Number text)) || JS.isNaN (JS.Number text))%bool
                   then VNull else VNumber (JS.Number text))
    by (destruct Hty as [-> | ->]; reflexivity).
  split; [destruct Hty as [-> | ->]; reflexivity|].
  split; [destruct Hty as [-> | ->]; reflexivity|].
  split; [|split].
  - intros [Hfin Hnan]. rewrite Hval, Hfin, Hnan. reflexivity.
  - intros Hnot. rewrite Hval.
    destruct (JS.isFinite (JS.Number text)), (JS.isNaN (JS.Number text));
      try reflexivity.
    exfalso. apply Hnot. auto.
  - intros lexeme Hin. simpl in Hin.
    destruct Hty as [-> | ->];
      repeat (destruct Hin as [<- | Hin]; [vm_compute; reflexivity|]);
      contradiction.
Qed.

(** C5.  The value of a constructed node has the run-time type its literal
    type calls for: a boolean for [boolean], a string for [string] and
    [identifier], and for [int] and [float] a finite number, or [null]
    exactly when the number read from the text is not finite. *)
Theorem value_type_consistent (type : LiteralType.t) (text : string) (st en : Pos) :
  match literalType (new_Constant type text st en) with
  | LiteralType.boolean =>
      runtime_type (value (new_Constant type text st en)) = TBoolean
  | LiteralType.string | LiteralType.identifier =>
      runtime_type (value (new_Constant type text st en)) = TString
  | LiteralType.int | LiteralType.float =>
      (JS.isFinite (JS.Number text) = true /\
       value (new_Constant type text st en) = VNumber (JS.Number text)) \/
      (JS.isFinite (JS.Number text) = false /\
       value (new_Constant type text st en) = VNull)
  end.
Proof.
  destruct type; simpl; try reflexivity;
    destruct (JS.Number text); simpl; auto.
Qed.

(** ** Re-serialization over the list token source *)

Lemma ls_scan_inv (s s1 : ListScanner) (token : Token.t) :
  scan s = Ok (token, s1) ->
  exists t rest,
    input s = t :: rest /\ token = tok_kind t /\ s1 = mkListScanner (Some t) rest.
Proof.
  simpl. unfold ls_scan. destruct (input s) as [|t rest]; [discriminate|].
  intros [= <- <-]. eauto.
Qed.

Lemma consumed_one (s : ListScanner) (t : Tok) (rest : list Tok) (c : option Tok) :
  input s = t :: rest ->
  consumed s (mkListScanner c rest) = [t].
Proof.
  intros Hin. unfold consumed. rewrite Hin. simpl input.
  replace (List.length (t :: rest) - List.length rest) with 1 by (cbn [List.length]; lia).
  reflexivity.
Qed.

Lemma consumed_two (s : ListScanner) (t t' : Tok) (rest : list Tok) (c : option Tok) :
  input s = t :: t' :: rest ->
  consumed s (mkListScanner c rest) = [t; t'].
Proof.
  intros Hin. unfold consumed. rewrite Hin. simpl input.
  replace (List.length (t :: t' :: rest) - List.length rest) with 2 by (cbn [List.length]; lia).
  reflexivity.
Qed.

(** X16.  What [toProto] returns after [parse]: the text the node was built
    with.  For an [identifier] node that is the text of the first token
    read, whatever the continuation consumed; for every other node, a sign
    followed by something other than [inf] apart, it is the text of all the
    tokens [parse] consumed. *)
Lemma toProto_parse (s s' : ListScanner) (node : Constant) :
  parse s = Ok (node, s') ->
  toProto node = raw node /\
  (literalType node = LiteralType.identifier ->
   exists t rest, input s = t :: rest /\ toProto node = tok_text t) /\
  (literalType node <> LiteralType.identifier ->
   sign_without_inf s = false ->
   toProto node = source_text s s').
Proof.
  intros Hp. split; [reflexivity|].
  apply parse_constructs in Hp.
  destruct Hp as (token & s1 & type & text & Hscan & Hcl & ->).
  apply ls_scan_inv in Hscan. destruct Hscan as (t & rest & Hin & -> & ->).
  apply classify_shape in Hcl.
  assert (Hty : forall a b c d, literalType (new_Constant a b c d) = a)
    by (intros [] ? ? ?; reflexivity).
  assert (Hraw : forall a b c d, toProto (new_Constant a b c d) = b)
    by (intros [] ? ? ?; reflexivity).
  rewrite Hty, Hraw.
  inversion Hcl as [ty Hnid Hnsign | s2 Hk Hfull | s2 Hk Hsign Hscan2 Hinf
                    | token' s2 Hk Hsign Hscan2 Hnot]; subst; simpl contents.
  - split; [contradiction|]. intros _ _.
    unfold source_text. now rewrite (consumed_one _ _ _ _ Hin).
  - split; [eauto | intros Hc; contradiction].
  - split; [discriminate|]. intros _ _.
    apply ls_scan_inv in Hscan2. destruct Hscan2 as (t' & rest' & Hin' & _ & ->).
    simpl in Hin'. subst rest. simpl in Hinf.
    unfold source_text. rewrite (consumed_two _ _ _ _ _ Hin).
    cbv [ls_contents current] in Hinf. simpl. now rewrite Hinf.
  - split; [discriminate|]. intros _ Hfalse. exfalso.
    apply ls_scan_inv in Hscan2. destruct Hscan2 as (t' & rest' & Hin' & -> & ->).
    simpl in Hin'. subst rest. simpl in Hsign, Hnot.
    unfold sign_without_inf in Hfalse. rewrite Hin, Hk in Hfalse.
    simpl in Hfalse.
    assert (Hs : (String.eqb (tok_text t) "-" || String.eqb (tok_text t) "+")%bool = true).
    { apply Bool.orb_true_iff.
      destruct Hsign as [Hs|Hs]; [left|right]; now apply String.eqb_eq. }
    rewrite Hs in Hfalse. simpl in Hfalse.
    apply Bool.negb_false_iff, Bool.andb_true_iff in Hfalse.
    destruct Hfalse as [Hc1 Hc2]. apply Hnot. split.
    + now destruct (Token_eqb_spec (tok_kind t') Token.keyword).
    + now apply String.eqb_eq.
Qed.

(** On [-inf] [toProto] returns the text of both tokens. *)
Lemma toProto_parse_witness :
  parse minus_inf
  = Ok (new_Constant LiteralType.int "-inf" (1, 1) (1, 5),
        advance (advance minus_inf)) /\
  toProto (new_Constant LiteralType.int "-inf" (1, 1) (1, 5))
  = source_text minus_inf (advance (advance minus_inf)).
Proof.
  split; [reflexivity|].
  destruct (toProto_parse minus_inf (advance (advance minus_inf))
              (new_Constant LiteralType.int "-inf" (1, 1) (1, 5)) eq_refl)
    as (_ & _ & Hsrc).
  apply Hsrc; [discriminate | reflexivity].
Defined.

(** C1, at the failing inputs.  The round trip asks [toProto] to return the
    text of every token [parse] consumed.  On [-5] the tokens consumed
    spell [-5] and [toProto] returns [-]; on [my.Enum.VALUE] they spell the
    whole name and [toProto] returns [my]. *)
Theorem toProto_parse_not_consumed_text :
  (exists node s',
     parse sign_then_int = Ok (node, s') /\
     source_text sign_then_int s' = "-5" /\
     toProto node = "-" /\
     toProto node <> source_text sign_then_int s') /\
  (exists node s',
     parse dotted_identifier = Ok (node, s') /\
     source_text dotted_identifier s' = "my.Enum.VALUE" /\
     toProto node = "my" /\
     toProto node <> source_text dotted_identifier s').
Proof.
  split; eexists; eexists;
    (split; [vm_compute; reflexivity|]);
    (split; [reflexivity|]); (split; [reflexivity|]);
    vm_compute; discriminate.
Qed.

(** The identifier branch over the list token source, whose continuation
    helper reads the separators and segments ahead.  On [my.Enum.VALUE]
    the node is an [identifier] whose end lies after [VALUE], the tokens
    consumed spell the whole name, and the value is [my], the text of the
    first token. *)
Lemma parse_identifier_value_first_segment :
  exists node s',
    parse dotted_identifier = Ok (node, s') /\
    literalType node = LiteralType.identifier /\
    end_ node = (1, 14) /\
    source_text dotted_identifier s' = "my.Enum.VALUE" /\
    value node = VString "my" /\
    value node <> VString (source_text dotted_identifier s').
Proof.
  eexists; eexists. split; [vm_compute; reflexivity|].
  repeat (split; [reflexivity|]). vm_compute. discriminate.
Qed.

(** C4, at the failing input.  A keyword token with the text [true] is none
    of the tokens the rejection rule lists, and [parse] returns a [boolean]
    node for it instead of throwing. *)
Theorem parse_keyword_true_accepted :
  parse keyword_true =
    Ok (mkConstant LiteralType.boolean "true" (1, 1) (1, 5) (VBoolean true),
        advance keyword_true) /\
  (forall e, parse keyword_true <> Throw e).
Proof. split; [reflexivity | intros e; vm_compute; discriminate]. Qed.

(** ** The theorems at concrete inputs *)

(** C6, witness: the identifier token [true]. *)
Lemma parse_boolean_witness :
  scan identifier_true = Ok (Token.identifier, advance identifier_true) /\
  contents (advance identifier_true) = "true" /\
  parse identifier_true =
    Ok (mkConstant LiteralType.boolean "true" (1, 1) (1, 5) (VBoolean true),
        advance identifier_true).
Proof.
  split; [reflexivity|]. split; [reflexivity|].
  exact (proj1 (parse_boolean identifier_true (advance identifier_true) eq_refl)
           eq_refl).
Defined.

(** C10, witness: the keyword token [true]. *)
Lemma parse_true_any_tag_witness :
  scan keyword_true = Ok (Token.keyword, advance keyword_true) /\
  Token.keyword <> Token.string /\
  contents (advance keyword_true) = "true" /\
  parse keyword_true =
    Ok (mkConstant LiteralType.boolean "true" (1, 1) (1, 5) (VBoolean true),
        advance keyword_true).
Proof.
  assert (Hk : Token.keyword <> Token.string) by discriminate.
  split; [reflexivity|]. split; [exact Hk|]. split; [reflexivity|].
  exact (proj1 (parse_true_any_tag keyword_true (advance keyword_true)
                  Token.keyword eq_refl Hk) eq_refl).
Defined.

(** C8, witness: [-inf]. *)
Lemma parse_signed_inf_witness :
  scan minus_inf = Ok (Token.token, advance minus_inf) /\
  contents (advance minus_inf) = "-" /\
  scan (advance minus_inf) = Ok (Token.keyword, advance (advance minus_inf)) /\
  contents (advance (advance minus_inf)) = "inf" /\
  parse minus_inf =
    Ok (mkConstant LiteralType.int "-inf" (1, 1) (1, 5) VNull,
        advance (advance minus_inf)).
Proof.
  repeat (split; [reflexivity|]).
  exact (parse_signed_inf minus_inf (advance minus_inf)
           (advance (advance minus_inf)) eq_refl (or_introl eq_refl)
           eq_refl eq_refl).
Defined.

(** C9, witness: [-5]. *)
Lemma parse_sign_without_inf_witness :
  scan sign_then_int = Ok (Token.token, advance sign_then_int) /\
  contents (advance sign_then_int) = "-" /\
  scan (advance sign_then_int) = Ok (Token.int, advance (advance sign_then_int)) /\
  ~ (Token.int = Token.keyword /\ contents (advance (advance sign_then_int)) = "inf") /\
  parse sign_then_int =
    Ok (mkConstant LiteralType.string "-" (1, 1) (1, 3) (VString EmptyString),
        advance (advance sign_then_int)).
Proof.
  assert (Hnot : ~ (Token.int = Token.keyword /\
                    contents (advance (advance sign_then_int)) = "inf"))
    by (intros [Hc _]; discriminate Hc).
  repeat (split; [reflexivity|]). split; [exact Hnot|].
  exact (parse_sign_without_inf sign_then_int (advance sign_then_int)
           (advance (advance sign_then_int)) Token.int eq_refl
           (or_introl eq_refl) eq_refl Hnot).
Defined.

(** On [my.Enum.VALUE] the helper leaves the scanner on [VALUE], and the
    node carries [my]. *)
Lemma parse_identifier_witness :
  scan dotted_identifier = Ok (Token.identifier, advance dotted_identifier) /\
  contents (advance dotted_identifier) <> "true" /\
  contents (advance dotted_identifier) <> "false" /\
  expectFullIdent (advance dotted_identifier) false
  = Ok (advance (advance (advance (advance (advance dotted_identifier))))) /\
  parse dotted_identifier =
    Ok (mkConstant LiteralType.identifier "my" (1, 1) (1, 14) (VString "my"),
        advance (advance (advance (advance (advance dotted_identifier))))).
Proof.
  assert (Ht : contents (advance dotted_identifier) <> "true") by discriminate.
  assert (Hf : contents (advance dotted_identifier) <> "false") by discriminate.
  split; [reflexivity|]. split; [exact Ht|]. split; [exact Hf|].
  split; [reflexivity|].
  exact (proj1 (parse_identifier dotted_identifier (advance dotted_identifier)
                  eq_refl Ht Hf) _ eq_refl).
Defined.

(** C3, witness: a [float] node for [1e400] and one for [1.5]. *)
Lemma numeric_value_policy_witness :
  value (new_Constant LiteralType.float "1e400" default_pos default_pos) = VNull /\
  value (new_Constant LiteralType.float "1.5" default_pos default_pos)
  = VNumber (JS.Finite false (3 * 2 ^ 51) (-52)).
Proof.
  split.
  - destruct (numeric_value_policy LiteralType.float "1e400" default_pos
                default_pos (or_intror eq_refl)) as (_ & _ & _ & Hnull & _).
    apply Hnull. vm_compute. intros [Hc _]. discriminate Hc.
  - destruct (numeric_value_policy LiteralType.float "1.5" default_pos
                default_pos (or_intror eq_refl)) as (_ & _ & Hnum & _).
    apply Hnum. vm_compute. split; reflexivity.
Defined.

(** ** How a parse ends *)

Section Outcomes.
Context {S : Type} `{TokenSource S}.

(** X1.  Every successful [parse] read a first token, consumed the input
    in one of four ways (nothing more, the identifier continuation, the
    keyword [inf] after a sign, something else after a sign), and built the
    node with the constructor from the start position read after the first
    [scan] and the end position of the scanner it hands back. *)
Theorem parse_success_shape (scanner s' : S) (node : Constant) :
  parse scanner = Ok (node, s') ->
  exists token s1 type text,
    scan scanner = Ok (token, s1) /\
    Consumption token s1 type text s' /\
    node = new_Constant type text (startPos s1) (endPos s') /\
    start node = startPos s1 /\ end_ node = endPos s'.
Proof.
  intros Hp. apply parse_constructs in Hp.
  destruct Hp as (token & s1 & type & text & Hscan & Hcl & ->).
  exists token, s1, type, text.
  repeat split; auto using classify_shape; destruct type; reflexivity.
Qed.

Ltac no_branch :=
  right; right; repeat split;
  try reflexivity; try assumption; try discriminate;
  try (intros [Hc _]; (contradiction || discriminate));
  try (intros [_ [Hc|Hc]]; contradiction).

(** Where a failing classification comes from. *)
Lemma classify_throws (token : Token.t) (s1 : S) (e : Thrown S) :
  classify token s1 = Throw e ->
  (token = Token.identifier /\ contents s1 <> "true" /\ contents s1 <> "false" /\
   expectFullIdent s1 false = Throw e) \/
  (token = Token.token /\ (contents s1 = "-" \/ contents s1 = "+") /\
   scan s1 = Throw e) \/
  (e = TokenError s1 token /\
   token <> Token.string /\ token <> Token.identifier /\
   token <> Token.int /\ token <> Token.float /\
   contents s1 <> "true" /\
   ~ (token = Token.token /\ (contents s1 = "-" \/ contents s1 = "+")) /\
   ~ (token = Token.keyword /\ (contents s1 = "inf" \/ contents s1 = "nan"))).
Proof.
  unfold classify.
  destruct (Token_eqb_spec token Token.string) as [->|Hstr]; [discriminate|].
  destruct (Token_eqb_spec token Token.identifier) as [->|Hid]; simpl.
  { destruct (String.eqb_spec (contents s1) "false") as [Hf|Hf];
      [discriminate|]. simpl.
    destruct (String.eqb_spec (contents s1) "true") as [Ht|Ht];
      [discriminate|].
    destruct (expectFullIdent s1 false) as [s2|e'] eqn:Hfull; simpl;
      [discriminate|].
    intros [= ->]. left. auto. }
  destruct (String.eqb_spec (contents s1) "true") as [Ht|Ht]; [discriminate|].
  destruct (Token_eqb_spec token Token.int) as [->|Hint]; [discriminate|].
  destruct (Token_eqb_spec token Token.float) as [->|Hfl]; [discriminate|].
  destruct (Token_eqb_spec token Token.token) as [->|Htok]; simpl.
  { destruct (String.eqb_spec (contents s1) "-") as [Hm|Hm]; simpl.
    - destruct (scan s1) as [[token' s2]|e'] eqn:Hscan2; simpl.
      + destruct (Token.eqb token' Token.keyword && String.eqb (contents s2) "inf")%bool;
          discriminate.
      + intros [= ->]. right. left. auto.
    - destruct (String.eqb_spec (contents s1) "+") as [Hp|Hp]; simpl.
      + destruct (scan s1) as [[token' s2]|e'] eqn:Hscan2; simpl.
        * destruct (Token.eqb token' Token.keyword && String.eqb (contents s2) "inf")%bool;
            discriminate.
        * intros [= ->]. right. left. auto.
      + intros [= <-]. no_branch. }
  destruct (Token_eqb_spec token Token.keyword) as [->|Hkw]; simpl.
  { destruct (String.eqb_spec (contents s1) "inf") as [Hi|Hi]; [discriminate|].
    destruct (String.eqb_spec (contents s1) "nan") as [Hn|Hn]; [discriminate|].
    simpl. intros [= <-]. no_branch. }
  intros [= <-]. no_branch.
Qed.

(** X2.  Once the first token is read, a failing [parse] fails in one of
    three ways only: the continuation helper failed on the identifier
    branch, the second [scan] failed on the sign branch (both errors are
    handed on as they are), or no branch took the token, and then the error
    is the [TokenError] made of the scanner and that token. *)
Theorem parse_failure_origin (scanner s1 : S) (token : Token.t) (e : Thrown S) :
  scan scanner = Ok (token, s1) ->
  parse scanner = Throw e ->
  (token = Token.identifier /\ contents s1 <> "true" /\ contents s1 <> "false" /\
   expectFullIdent s1 false = Throw e) \/
  (token = Token.token /\ (contents s1 = "-" \/ contents s1 = "+") /\
   scan s1 = Throw e) \/
  (e = TokenError s1 token /\
   token <> Token.string /\ token <> Token.identifier /\
   token <> Token.int /\ token <> Token.float /\
   contents s1 <> "true" /\
   ~ (token = Token.token /\ (contents s1 = "-" \/ contents s1 = "+")) /\
   ~ (token = Token.keyword /\ (contents s1 = "inf" \/ contents s1 = "nan"))).
Proof.
  intros Hscan Hp. rewrite (parse_after_scan _ _ _ Hscan) in Hp.
  apply classify_throws.
  destruct (classify token s1) as [[[type text] s2]|e'];
    simpl in Hp; [discriminate | congruence].
Qed.

(** X3.  When the token source fails on the first [scan], or on the second
    [scan] after a sign, [parse] fails with that very error. *)
Theorem parse_passes_scan_errors (scanner : S) (e : Thrown S) :
  (scan scanner = Throw e \/
   exists s1, scan scanner = Ok (Token.token, s1) /\
              (contents s1 = "-" \/ contents s1 = "+") /\
              scan s1 = Throw e) ->
  parse scanner = Throw e.
Proof.
  intros [Hscan | (s1 & Hscan & Hsign & Hscan2)].
  - now apply parse_scan_throws.
  - rewrite (parse_after_scan _ _ _ Hscan). unfold classify. simpl Token.eqb.
    destruct Hsign as [Hs|Hs]; rewrite Hs; simpl; rewrite Hscan2; reflexivity.
Qed.

(** X4.  A string token always gives a [string] node, whatever its text
    (the string test comes first); the value is the text without its first
    and last character and no further token is read. *)
Theorem parse_string_token (scanner s1 : S) :
  scan scanner = Ok (Token.string, s1) ->
  parse scanner =
    Ok (mkConstant LiteralType.string (contents s1) (startPos s1) (endPos s1)
          (VString (drop_last (drop_first (contents s1)))), s1).
Proof.
  intros Hscan. rewrite (parse_after_scan _ _ _ Hscan).
  unfold classify. simpl Token.eqb. cbv iota.
  unfold bind, new_Constant. now rewrite slice_1_m1.
Qed.

(** X5.  An integer token gives an [int] node and a float token a [float]
    node, built from the token's text alone, unless that text is [true];
    no further token is read. *)
Theorem parse_numeric_token (scanner s1 : S) (token : Token.t) :
  scan scanner = Ok (token, s1) ->
  token = Token.int \/ token = Token.float ->
  contents s1 <> "true" ->
  parse scanner =
    Ok (new_Constant
          (if Token.eqb token Token.int then LiteralType.int else LiteralType.float)
          (contents s1) (startPos s1) (endPos s1), s1).
Proof.
  intros Hscan Htok Ht. rewrite (parse_after_scan _ _ _ Hscan).
  unfold classify. destruct Htok as [-> | ->]; simpl Token.eqb;
    string_tests; reflexivity.
Qed.

(** X6.  The bare keywords [inf] and [nan] give an [int] node whose text is
    the keyword and whose value is [null]. *)
Theorem parse_bare_keyword (scanner s1 : S) :
  scan scanner = Ok (Token.keyword, s1) ->
  contents s1 = "inf" \/ contents s1 = "nan" ->
  parse scanner =
    Ok (mkConstant LiteralType.int (contents s1) (startPos s1) (endPos s1)
          VNull, s1).
Proof.
  intros Hscan Hkw. rewrite (parse_after_scan _ _ _ Hscan).
  unfold classify. simpl Token.eqb.
  destruct Hkw as [Hk|Hk]; rewrite Hk; reflexivity.
Qed.

End Outcomes.

(** ** From the kind of a node back to the tokens *)

Section Origins.
Context {S : Type} `{TokenSource S}.

Lemma classify_origin (token : Token.t) (s1 s' : S) (type : LiteralType.t)
    (text : string) :
  classify token s1 = Ok (type, text, s') ->
  match type with
  | LiteralType.boolean =>
      s' = s1 /\ text = contents s1 /\ token <> Token.string /\
      (contents s1 = "true" \/ (contents s1 = "false" /\ token = Token.identifier))
  | LiteralType.identifier =>
      token = Token.identifier /\ text = contents s1 /\
      contents s1 <> "true" /\ contents s1 <> "false" /\
      expectFullIdent s1 false = Ok s'
  | LiteralType.float =>
      token = Token.float /\ s' = s1 /\ text = contents s1
  | LiteralType.int =>
      (token = Token.int /\ s' = s1 /\ text = contents s1) \/
      (token = Token.keyword /\ (contents s1 = "inf" \/ contents s1 = "nan") /\
       s' = s1 /\ text = contents s1) \/
      (token = Token.token /\ (contents s1 = "-" \/ contents s1 = "+") /\
       scan s1 = Ok (Token.keyword, s') /\ contents s' = "inf" /\
       text = contents s1 ++ "inf")
  | LiteralType.string =>
      (token = Token.string /\ s' = s1 /\ text = contents s1) \/
      (token = Token.token /\ (contents s1 = "-" \/ contents s1 = "+") /\
       text = contents s1 /\
       exists token', scan s1 = Ok (token', s') /\
                      ~ (token' = Token.keyword /\ contents s' = "inf"))
  end.
Proof.
  unfold classify.
  destruct (Token_eqb_spec token Token.string) as [->|Hstr].
  { intros [= <- <- <-]. left. auto. }
  destruct (Token_eqb_spec token Token.identifier) as [->|Hid]; simpl.
  { destruct (String.eqb_spec (contents s1) "false") as [Hf|Hf]; simpl.
    - intros [= <- <- <-]. auto 6.
    - destruct (String.eqb_spec (contents s1) "true") as [Ht|Ht].
      + intros [= <- <- <-]. auto 6.
      + destruct (expectFullIdent s1 false) as [s2|e] eqn:Hfull; simpl;
          [|discriminate].
        intros [= <- <- <-]. auto 6. }
  destruct (String.eqb_spec (contents s1) "true") as [Ht|Ht].
  { intros [= <- <- <-]. auto 6. }
  destruct (Token_eqb_spec token Token.int) as [->|Hint].
  { intros [= <- <- <-]. left. auto. }
  destruct (Token_eqb_spec token Token.float) as [->|Hfl].
  { intros [= <- <- <-]. auto. }
  destruct (Token_eqb_spec token Token.token) as [->|Htok]; simpl.
  { destruct (String.eqb (contents s1) "-" || String.eqb (contents s1) "+")%bool
      eqn:Hsign; [|discriminate].
    assert (Hs : contents s1 = "-" \/ contents s1 = "+").
    { apply Bool.orb_true_iff in Hsign.
      destruct Hsign as [Hs|Hs]; apply String.eqb_eq in Hs; auto. }
    destruct (scan s1) as [[token' s2]|e] eqn:Hscan2; simpl; [|discriminate].
    destruct (Token_eqb_spec token' Token.keyword) as [->|Hk]; simpl.
    - destruct (String.eqb_spec (contents s2) "inf") as [Hinf|Hinf].
      + intros [= <- <- <-]. right. right. rewrite Hinf. auto 6.
      + intros [= <- <- <-]. right. repeat (split; [auto; fail|]).
        exists Token.keyword. split; [reflexivity|]. intros [_ Hc]. contradiction.
    - intros [= <- <- <-]. right. repeat (split; [auto; fail|]).
      exists token'. split; [reflexivity|]. intros [Hc _]. contradiction. }
  destruct (Token_eqb_spec token Token.keyword) as [->|Hkw]; simpl;
    [|discriminate].
  destruct (String.eqb (contents s1) "inf" || String.eqb (contents s1) "nan")%bool
    eqn:Hkey; [|discriminate].
  intros [= <- <- <-]. right. left.
  apply Bool.orb_true_iff in Hkey.
  destruct Hkey as [Hk|Hk]; apply String.eqb_eq in Hk; auto 6.
Qed.

(** X7.  The literal type of a parsed node tells how it was read.  A
    [boolean] node has the text [true], or the text [false] from an
    identifier token; an [identifier] node comes from an identifier token
    with another text, after the continuation helper; a [float] node from a
    float token; an [int] node from an integer token, a bare [inf] or
    [nan] keyword, or a sign followed by [inf]; a [string] node from a
    string token, or from a sign not followed by [inf]. *)
Theorem parse_kind_origin (scanner s1 s' : S) (token : Token.t) (node : Constant) :
  scan scanner = Ok (token, s1) ->
  parse scanner = Ok (node, s') ->
  match literalType node with
  | LiteralType.boolean =>
      s' = s1 /\ raw node = contents s1 /\ token <> Token.string /\
      (contents s1 = "true" \/ (contents s1 = "false" /\ token = Token.identifier))
  | LiteralType.identifier =>
      token = Token.identifier /\ raw node = contents s1 /\
      contents s1 <> "true" /\ contents s1 <> "false" /\
      expectFullIdent s1 false = Ok s'
  | LiteralType.float =>
      token = Token.float /\ s' = s1 /\ raw node = contents s1
  | LiteralType.int =>
      (token = Token.int /\ s' = s1 /\ raw node = contents s1) \/
      (token = Token.keyword /\ (contents s1 = "inf" \/ contents s1 = "nan") /\
       s' = s1 /\ raw node = contents s1) \/
      (token = Token.token /\ (contents s1 = "-" \/ contents s1 = "+") /\
       scan s1 = Ok (Token.keyword, s') /\ contents s' = "inf" /\
       raw node = contents s1 ++ "inf")
  | LiteralType.string =>
      (token = Token.string /\ s' = s1 /\ raw node = contents s1) \/
      (token = Token.token /\ (contents s1 = "-" \/ contents s1 = "+") /\
       raw node = contents s1 /\
       exists token', scan s1 = Ok (token', s') /\
                      ~ (token' = Token.keyword /\ contents s' = "inf"))
  end.
Proof.
  intros Hscan Hp. rewrite (parse_after_scan _ _ _ Hscan) in Hp.
  destruct (classify token s1) as [[[type text] s2]|e] eqn:Hcl;
    simpl in Hp; [|discriminate].
  injection Hp as <- <-.
  apply classify_origin in Hcl.
  destruct type; exact Hcl.
Qed.

End Origins.

(** ** More on the constructor *)

(** X8.  The value of a constructed node tells its literal type back: a
    boolean only for [boolean], and it is the test of the text against
    [true]; a string only for [string] (the text stripped) and [identifier]
    (the text itself); a number only for [int] and [float], and it is
    finite; [null] only for [int] and [float] whose text does not read as
    a finite number. *)
Theorem value_determines_kind (type : LiteralType.t) (text : string) (st en : Pos) :
  match value (new_Constant type text st en) with
  | VBoolean b => type = LiteralType.boolean /\ b = String.eqb text "true"
  | VString v =>
      (type = LiteralType.string /\ v = drop_last (drop_first text)) \/
      (type = LiteralType.identifier /\ v = text)
  | VNumber n =>
      (type = LiteralType.int \/ type = LiteralType.float) /\
      n = JS.Number text /\ JS.isFinite n = true
  | VNull =>
      (type = LiteralType.int \/ type = LiteralType.float) /\
      JS.isFinite (JS.Number text) = false
  end.
Proof.
  destruct type; cbv [new_Constant value].
  - auto.
  - rewrite slice_1_m1. auto.
  - destruct (JS.Number text); cbn; auto.
  - destruct (JS.Number text); cbn; auto.
  - auto.
Qed.

Lemma length_drop_first (s : string) :
  String.length (drop_first s) = String.length s - 1.
Proof. destruct s; simpl; lia. Qed.

Lemma length_drop_last (s : string) :
  String.length (drop_last s) = String.length s - 1.
Proof.
  induction s as [|c s IH]; [reflexivity|].
  destruct s as [|d s]; [reflexivity|].
  change (drop_last (String c (String d s))) with (String c (drop_last (String d s))).
  simpl String.length in *. lia.
Qed.

(** X9.  The value of a [string] node is a string two characters shorter
    than the text, and empty when the text has fewer than two. *)
Theorem string_value_length (text : string) (st en : Pos) :
  exists v,
    value (new_Constant LiteralType.string text st en) = VString v /\
    String.length v = String.length text - 2.
Proof.
  exists (drop_last (drop_first text)). split.
  - cbv [new_Constant value]. now rewrite slice_1_m1.
  - rewrite length_drop_last, length_drop_first. lia.
Qed.

(** X12.  [toJSON] keeps every field: two nodes with the same dump are the
    same node, the dump's [raw] is what [toProto] returns, and its type tag
    is always [Constant]. *)
Theorem toJSON_faithful (c1 c2 : Constant) :
  toJSON c1 = toJSON c2 ->
  c1 = c2 /\ json_raw (toJSON c1) = toProto c2 /\ json_type (toJSON c1) = "Constant".
Proof.
  destruct c1 as [t1 r1 s1 e1 v1], c2 as [t2 r2 s2 e2 v2].
  unfold toJSON, toProto. simpl. intros [= -> -> -> -> ->]. auto.
Qed.

(** X13.  [accept] with a visitor that has neither hook changes nothing;
    when the generic hook throws, [accept] throws the same whatever the
    kind-specific hook is, which is not run; when the generic hook
    returns, the kind-specific hook runs on the world it left. *)
Theorem accept_hooks_in_order {W E : Type} (node : Constant) (w : W)
    (generic : Constant -> W -> Outcome E W) :
  accept node (mkVisitor None None) w = @Returned E W w /\
  (forall e, generic node w = Raised e ->
     forall specific, accept node (mkVisitor (Some generic) specific) w = Raised e) /\
  (forall w1, generic node w = Returned w1 ->
     forall specific,
       accept node (mkVisitor (Some generic) (Some specific)) w = specific node w1).
Proof.
  split; [reflexivity|]. split.
  - intros e Hg specific. unfold accept. simpl. now rewrite Hg.
  - intros w1 Hg specific. unfold accept. simpl. now rewrite Hg.
Qed.

(** ** Plain decimal literals *)

Lemma decimal_digit_cases (c : ascii) :
  is_decimal_digit c = true ->
  In c ["0"; "1"; "2"; "3"; "4"; "5"; "6"; "7"; "8"; "9"]%char.
Proof.
  destruct c as [[] [] [] [] [] [] [] []]; vm_compute;
    intros Hd; try discriminate Hd; tauto.
Qed.

Lemma decimal_digit_not_white (c : ascii) :
  is_decimal_digit c = true -> JS.is_white_space c = false.
Proof.
  intros Hd. apply decimal_digit_cases in Hd. simpl in Hd.
  repeat (destruct Hd as [<- | Hd]; [reflexivity|]). contradiction.
Qed.

Lemma trim_end_digits (s : string) :
  all_decimal_digits s = true -> JS.trim_end s = s.
Proof.
  induction s as [|c s IH]; [reflexivity|].
  simpl. intros Hall. apply Bool.andb_true_iff in Hall. destruct Hall as [Hc Hs].
  rewrite (IH Hs). destruct s; [|reflexivity].
  now rewrite (decimal_digit_not_white _ Hc).
Qed.

Lemma trim_digits (s : string) :
  all_decimal_digits s = true -> JS.trim s = s.
Proof.
  intros Hall. unfold JS.trim.
  assert (Hstart : JS.trim_start s = s).
  { destruct s as [|c s]; [reflexivity|]. simpl in *.
    apply Bool.andb_true_iff in Hall. destruct Hall as [Hc _].
    now rewrite (decimal_digit_not_white _ Hc). }
  rewrite Hstart. now apply trim_end_digits.
Qed.

Lemma span_digits_all (s : string) :
  all_decimal_digits s = true -> JS.span_digits 10 s = (s, EmptyString).
Proof.
  induction s as [|c s IH]; [reflexivity|].
  simpl. intros Hall. apply Bool.andb_true_iff in Hall. destruct Hall as [Hc Hs].
  unfold is_decimal_digit in Hc.
  destruct (JS.digit_of 10 c); [|discriminate]. now rewrite (IH Hs).
Qed.

Lemma append_empty (s : string) : s ++ EmptyString = s.
Proof. induction s as [|c s IH]; simpl; congruence. Qed.

Lemma unsigned_decimal_digits (s : string) :
  all_decimal_digits s = true -> s <> EmptyString ->
  JS.unsigned_decimal s = Some (JS.digits_value 10 0 s, 0%Z).
Proof.
  intros Hall Hne. unfold JS.unsigned_decimal.
  rewrite (span_digits_all _ Hall). cbv iota beta.
  destruct s as [|c s]; [contradiction|].
  cbn [JS.is_empty andb JS.exponent_part]. now rewrite append_empty.
Qed.

Lemma non_decimal_digits (s : string) :
  all_decimal_digits s = true -> JS.non_decimal s = None.
Proof.
  destruct s as [|c [|p r]]; intros Hall.
  - reflexivity.
  - destruct c as [[] [] [] [] [] [] [] []]; reflexivity.
  - simpl in Hall. apply Bool.andb_true_iff in Hall. destruct Hall as [_ Hall].
    apply Bool.andb_true_iff in Hall. destruct Hall as [Hp _].
    apply decimal_digit_cases in Hp. simpl in Hp.
    destruct c as [[] [] [] [] [] [] [] []]; try reflexivity.
    repeat (destruct Hp as [<- | Hp]; [reflexivity|]). contradiction.
Qed.

(** [Number] on a non-empty string of decimal digits: the digits' value,
    rounded. *)
Lemma Number_digits (s : string) :
  all_decimal_digits s = true -> s <> EmptyString ->
  JS.Number s = JS.round_to_double false (JS.digits_value 10 0 s) 0.
Proof.
  intros Hall Hne. unfold JS.Number. rewrite (trim_digits _ Hall).
  rewrite (non_decimal_digits _ Hall).
  pose proof (unsigned_decimal_digits _ Hall Hne) as Hdec.
  destruct s as [|c r]; [contradiction|]. cbn [JS.is_empty].
  assert (Hc : is_decimal_digit c = true).
  { simpl in Hall. apply Bool.andb_true_iff in Hall. tauto. }
  apply decimal_digit_cases in Hc. simpl in Hc.
  repeat (destruct Hc as [<- | Hc];
          [cbn [String.eqb Ascii.eqb Bool.eqb]; cbv iota; now rewrite Hdec|]).
  contradiction.
Qed.

Lemma digit_of_bound (base : N) (c : ascii) (v : N) :
  JS.digit_of base c = Some v -> (v < base)%N.
Proof.
  unfold JS.digit_of.
  destruct (if ((48 <=? N_of_ascii c) && (N_of_ascii c <=? 57))%N then _ else _)
    as [d|]; [|discriminate].
  destruct (N.ltb_spec d base); [|discriminate]. now intros [= <-].
Qed.

Lemma digits_value_bound (s : string) (acc : N) :
  (JS.digits_value 10 acc s < (acc + 1) * 10 ^ N.of_nat (String.length s))%N.
Proof.
  revert acc. induction s as [|c s IH]; intros acc.
  - simpl. lia.
  - cbn [JS.digits_value String.length].
    rewrite Nat2N.inj_succ, N.pow_succ_r'.
    destruct (JS.digit_of 10 c) as [v|] eqn:Hd.
    + apply digit_of_bound in Hd. specialize (IH (acc * 10 + v)%N).
      assert (Hpos : (0 < 10 ^ N.of_nat (String.length s))%N)
        by (pose proof (N.pow_nonzero 10 (N.of_nat (String.length s)));
            lia).
      nia.
    + assert (Hpos : (0 < 10 ^ N.of_nat (String.length s))%N)
        by (pose proof (N.pow_nonzero 10 (N.of_nat (String.length s)));
            lia).
      nia.
Qed.

Lemma ten_pow_308_fits : (10 ^ 308 < JS.overflow_bound)%N.
Proof. apply N.ltb_lt. vm_compute. reflexivity. Qed.

Lemma two_pow_53_fits : (2 ^ 53 < JS.overflow_bound)%N.
Proof. apply N.ltb_lt. vm_compute. reflexivity. Qed.

Lemma scale_down (a k : Z) :
  (k <= 0)%Z -> JS.scale a 1 k = ((a * 2 ^ (- k))%Z, 1%Z).
Proof.
  intros Hk. unfold JS.scale. destruct (Z.leb_spec 0 k) as [Hle|Hlt].
  - assert (k = 0%Z) by lia. subst k.
    change (2 ^ 0)%Z with 1%Z. change (2 ^ (- 0))%Z with 1%Z.
    f_equal; lia.
  - reflexivity.
Qed.

(** A positive integer below [2^53] is its own nearest double: the
    mantissa is the integer shifted up to 53 bits, nothing is rounded. *)
Lemma nearest_small_integer (a : Z) :
  (0 < a < 2 ^ 53)%Z ->
  JS.nearest a 1 = ((a * 2 ^ (52 - Z.log2 a))%Z, (Z.log2 a - 52)%Z).
Proof.
  intros [Hpos Hlt].
  pose proof (Z.log2_spec a Hpos) as [Hlo Hhi].
  pose proof (Z.log2_nonneg a) as Hnn.
  assert (HL : (Z.log2 a < 53)%Z) by (apply Z.log2_lt_pow2; lia).
  set (L := Z.log2 a) in *.
  assert (Hp : (0 < 2 ^ (52 - L))%Z) by (apply Z.pow_pos_nonneg; lia).
  assert (H52 : (2 ^ L * 2 ^ (52 - L) = 2 ^ 52)%Z)
    by (rewrite <- Z.pow_add_r by lia; f_equal; lia).
  assert (H53 : (2 ^ Z.succ L * 2 ^ (52 - L) = 2 ^ 53)%Z)
    by (rewrite <- Z.pow_add_r by lia; f_equal; lia).
  set (P := (2 ^ (52 - L))%Z) in *.
  unfold JS.nearest. fold L. change (Z.log2 1) with 0%Z.
  replace (L - 0 - 52)%Z with (L - 52)%Z by lia.
  rewrite (scale_down a (L - 52)) by lia.
  replace (- (L - 52))%Z with (52 - L)%Z by lia. fold P.
  cbv beta iota zeta.
  assert (Htest : (2 ^ 52 * 1 <=? a * P)%Z = true) by (apply Z.leb_le; nia).
  rewrite Htest.
  replace (Z.max (L - 52) JS.min_exponent) with (L - 52)%Z
    by (unfold JS.min_exponent; lia).
  rewrite (scale_down a (L - 52)) by lia.
  replace (- (L - 52))%Z with (52 - L)%Z by lia. fold P.
  cbv beta iota zeta.
  rewrite Z.div_1_r, Z.mod_1_r.
  change (1 <? 2 * 0)%Z with false. change (2 * 0 =? 1)%Z with false.
  cbv beta iota. cbn [orb andb].
  assert (Hne : (a * P =? 2 ^ 53)%Z = false) by (apply Z.eqb_neq; nia).
  now rewrite Hne.
Qed.

Lemma round_small_integer (n : N) :
  (0 < n < 2 ^ 53)%N ->
  JS.round_to_double false n 0
  = JS.Finite false
      (Z.to_N (Z.of_N n * 2 ^ (52 - Z.log2 (Z.of_N n))))
      (Z.log2 (Z.of_N n) - 52).
Proof.
  intros [Hpos Hlt]. pose proof two_pow_53_fits as Hfit.
  unfold JS.round_to_double.
  change (0 <=? 0)%Z with true. change (Z.to_N 0) with 0%N. cbv iota.
  rewrite N.pow_0_r, N.mul_1_r.
  assert (Hsmall : (JS.overflow_bound <=? n)%N = false) by (apply N.leb_gt; lia).
  assert (Hnz : (n =? 0)%N = false) by (apply N.eqb_neq; lia).
  rewrite Hsmall, Hnz.
  rewrite Z.pow_0_r, Z.mul_1_r.
  rewrite nearest_small_integer; [reflexivity|].
  split; [lia|].
  change (2 ^ 53)%Z with (Z.of_N (2 ^ 53)). lia.
Qed.

(** Below [2^53] the rounded value of an integer is that integer. *)
Lemma round_exact (n : N) :
  (n < 2 ^ 53)%N -> JS.is_integer (JS.round_to_double false n 0) n.
Proof.
  intros Hlt. destruct (N.eq_dec n 0) as [-> | Hnz].
  - vm_compute. split; [discriminate | reflexivity].
  - rewrite round_small_integer by lia.
    assert (Hpos : (0 < Z.of_N n)%Z) by lia.
    assert (HL : (Z.log2 (Z.of_N n) < 53)%Z).
    { apply Z.log2_lt_pow2; [lia|].
      change (2 ^ 53)%Z with (Z.of_N (2 ^ 53)). lia. }
    pose proof (Z.log2_nonneg (Z.of_N n)) as Hnn.
    cbv beta iota delta [JS.is_integer]. split; [lia|].
    replace (- (Z.log2 (Z.of_N n) - 52))%Z with (52 - Z.log2 (Z.of_N n))%Z by lia.
    rewrite Z2N.inj_mul by (try apply Z.pow_nonneg; lia).
    rewrite N2Z.id. f_equal.
    now rewrite Z2N.inj_pow by lia.
Qed.

(** An integer rounds to an infinity from the overflow bound on, and to a
    finite double below it; never to NaN. *)
Lemma round_integer_finite (n : N) :
  JS.isFinite (JS.round_to_double false n 0)
  = negb (JS.overflow_bound <=? n)%N /\
  JS.isNaN (JS.round_to_double false n 0) = false.
Proof.
  unfold JS.round_to_double.
  change (0 <=? 0)%Z with true. change (Z.to_N 0) with 0%N. cbv iota.
  rewrite N.pow_0_r, N.mul_1_r.
  destruct (JS.overflow_bound <=? n)%N; [split; reflexivity|].
  destruct (n =? 0)%N; [split; reflexivity|].
  destruct (JS.nearest (Z.of_N n * 10 ^ 0) 1) as [q k]. split; reflexivity.
Qed.

Lemma numeric_value (type : LiteralType.t) (text : string) (st en : Pos) :
  type = LiteralType.int \/ type = LiteralType.float ->
  value (new_Constant type text st en)
  = if (negb (JS.isFinite (JS.Number text)) || JS.isNaN (JS.Number text))%bool
    then VNull else VNumber (JS.Number text).
Proof. intros [-> | ->]; reflexivity. Qed.

(** X10.  For a text made of decimal digits only, spelling the number [n]
    in base ten, an [int] or [float] node reads the double nearest to [n]:
    its value is [null] exactly when [n] has reached the overflow bound of
    a double, it is that double below the bound, and it is [n] itself when
    [n] is below [2^53]. *)
Theorem decimal_literal_value (type : LiteralType.t) (text : string) (st en : Pos) :
  type = LiteralType.int \/ type = LiteralType.float ->
  all_decimal_digits text = true ->
  text <> EmptyString ->
  JS.Number text = JS.round_to_double false (JS.digits_value 10 0 text) 0 /\
  (value (new_Constant type text st en) = VNull
   <-> (JS.overflow_bound <= JS.digits_value 10 0 text)%N) /\
  ((JS.digits_value 10 0 text < JS.overflow_bound)%N ->
   value (new_Constant type text st en) = VNumber (JS.Number text)) /\
  ((JS.digits_value 10 0 text < 2 ^ 53)%N ->
   exists x, value (new_Constant type text st en) = VNumber x /\
             JS.is_integer x (JS.digits_value 10 0 text)).
Proof.
  intros Hty Hall Hne.
  pose proof (Number_digits _ Hall Hne) as Hnum.
  pose proof (numeric_value type text st en Hty) as Hval.
  destruct (round_integer_finite (JS.digits_value 10 0 text)) as [Hfin Hnan].
  rewrite <- Hnum in Hfin, Hnan. rewrite Hfin, Hnan in Hval.
  assert (Hbelow : (JS.digits_value 10 0 text < JS.overflow_bound)%N ->
                   value (new_Constant type text st en) = VNumber (JS.Number text)).
  { intros Hlt. apply N.leb_gt in Hlt. rewrite Hlt in Hval. exact Hval. }
  split; [exact Hnum|]. split; [|split; [exact Hbelow|]].
  - split.
    + intros Hnull.
      destruct (N.leb_spec JS.overflow_bound (JS.digits_value 10 0 text)) as [Hle|Hlt];
        [exact Hle|].
      rewrite (Hbelow Hlt) in Hnull. discriminate.
    + intros Hle. apply N.leb_le in Hle. rewrite Hle in Hval. exact Hval.
  - intros Hlt. exists (JS.Number text). split.
    + apply Hbelow. pose proof two_pow_53_fits. lia.
    + rewrite Hnum. now apply round_exact.
Qed.

(** X11.  A decimal literal of at most 308 digits never gets the value
    [null]: its value is the finite double read from its text. *)
Theorem short_decimal_literal_not_null (type : LiteralType.t) (text : string)
    (st en : Pos) :
  type = LiteralType.int \/ type = LiteralType.float ->
  all_decimal_digits text = true ->
  text <> EmptyString ->
  String.length text <= 308 ->
  value (new_Constant type text st en) = VNumber (JS.Number text) /\
  JS.isFinite (JS.Number text) = true /\
  value (new_Constant type text st en) <> VNull.
Proof.
  intros Hty Hall Hne Hlen.
  pose proof (Number_digits _ Hall Hne) as Hnum.
  pose proof (numeric_value type text st en Hty) as Hval.
  destruct (round_integer_finite (JS.digits_value 10 0 text)) as [Hfin Hnan].
  rewrite <- Hnum in Hfin, Hnan.
  assert (Hsmall : (JS.digits_value 10 0 text < JS.overflow_bound)%N).
  { pose proof (digits_value_bound text 0) as Hb.
    pose proof ten_pow_308_fits as Hfit.
    assert (Hpow : (10 ^ N.of_nat (String.length text) <= 10 ^ 308)%N)
      by (apply N.pow_le_mono_r; lia).
    lia. }
  apply N.leb_gt in Hsmall. rewrite Hsmall in Hfin. cbn [negb] in Hfin.
  rewrite Hfin, Hnan in Hval. cbn [negb orb] in Hval.
  split; [exact Hval|]. split; [exact Hfin|].
  rewrite Hval. discriminate.
Qed.

(** ** The further theorems at concrete inputs *)

(** On [-inf] the parse succeeds by reading the keyword after the sign. *)
Lemma parse_success_shape_witness :
  parse minus_inf
  = Ok (new_Constant LiteralType.int "-inf" (1, 1) (1, 5),
        advance (advance minus_inf)) /\
  exists token s1 type text,
    scan minus_inf = Ok (token, s1) /\
    Consumption token s1 type text (advance (advance minus_inf)) /\
    new_Constant LiteralType.int "-inf" (1, 1) (1, 5)
    = new_Constant type text (startPos s1) (endPos (advance (advance minus_inf))) /\
    start (new_Constant LiteralType.int "-inf" (1, 1) (1, 5)) = startPos s1 /\
    end_ (new_Constant LiteralType.int "-inf" (1, 1) (1, 5))
    = endPos (advance (advance minus_inf)).
Proof.
  split; [reflexivity|].
  exact (parse_success_shape minus_inf (advance (advance minus_inf))
           (new_Constant LiteralType.int "-inf" (1, 1) (1, 5)) eq_refl).
Defined.

(** On a stray brace the parse fails because no branch takes the token. *)
Lemma parse_failure_origin_witness :
  scan stray_brace = Ok (Token.token, advance stray_brace) /\
  parse stray_brace = Throw (TokenError (advance stray_brace) Token.token) /\
  TokenError (advance stray_brace) Token.token
  = TokenError (advance stray_brace) Token.token.
Proof.
  assert (Hscan : scan stray_brace = Ok (Token.token, advance stray_brace))
    by reflexivity.
  assert (Hp : parse stray_brace
               = Throw (TokenError (advance stray_brace) Token.token))
    by reflexivity.
  split; [exact Hscan|]. split; [exact Hp|].
  destruct (parse_failure_origin stray_brace (advance stray_brace) Token.token
              (TokenError (advance stray_brace) Token.token) Hscan Hp)
    as [(Hc & _) | [(_ & [Hc|Hc] & _) | (He & _)]];
    [discriminate Hc | discriminate Hc | discriminate Hc | exact He].
Defined.

(** On a stray brace every condition of the rejection rule holds. *)
Lemma parse_rejects_witness :
  scan stray_brace = Ok (Token.token, advance stray_brace) /\
  contents (advance stray_brace) <> "true" /\
  parse stray_brace = Throw (TokenError (advance stray_brace) Token.token).
Proof.
  assert (Ht : contents (advance stray_brace) <> "true") by discriminate.
  assert (Hscan : scan stray_brace = Ok (Token.token, advance stray_brace))
    by reflexivity.
  split; [exact Hscan|]. split; [exact Ht|].
  apply (parse_rejects stray_brace (advance stray_brace) Token.token Hscan);
    try discriminate; try exact Ht.
  - intros [_ [Hc|Hc]]; discriminate Hc.
  - intros [Hc _]; discriminate Hc.
Defined.

(** On no input the first [scan] fails; on a lone sign the second one. *)
Lemma parse_passes_scan_errors_witness :
  scan empty_input = Throw (SourceError "unexpected end of input") /\
  parse empty_input = Throw (SourceError "unexpected end of input") /\
  scan (advance sign_only) = Throw (SourceError "unexpected end of input") /\
  parse sign_only = Throw (SourceError "unexpected end of input").
Proof.
  split; [reflexivity|]. split.
  - exact (parse_passes_scan_errors empty_input _ (or_introl eq_refl)).
  - split; [reflexivity|].
    apply (parse_passes_scan_errors sign_only). right.
    exists (advance sign_only).
    split; [reflexivity|]. split; [right; reflexivity | reflexivity].
Defined.

(** The string literal [hello] in double quotes. *)
Lemma parse_string_token_witness :
  scan quoted_hello = Ok (Token.string, advance quoted_hello) /\
  parse quoted_hello =
    Ok (mkConstant LiteralType.string
          (String dquote ("hello" ++ String dquote EmptyString)) (1, 1) (1, 8)
          (VString "hello"), advance quoted_hello).
Proof.
  split; [reflexivity|].
  exact (parse_string_token quoted_hello (advance quoted_hello) eq_refl).
Defined.

(** The integer literal [42]. *)
Lemma parse_numeric_token_witness :
  scan int_42 = Ok (Token.int, advance int_42) /\
  contents (advance int_42) <> "true" /\
  parse int_42 =
    Ok (mkConstant LiteralType.int "42" (1, 1) (1, 3)
          (VNumber (JS.Finite false (42 * 2 ^ 47) (-47))), advance int_42).
Proof.
  assert (Ht : contents (advance int_42) <> "true") by discriminate.
  split; [reflexivity|]. split; [exact Ht|].
  exact (parse_numeric_token int_42 (advance int_42) Token.int eq_refl
           (or_introl eq_refl) Ht).
Defined.

(** The bare keyword [nan]. *)
Lemma parse_bare_keyword_witness :
  scan keyword_nan = Ok (Token.keyword, advance keyword_nan) /\
  contents (advance keyword_nan) = "nan" /\
  parse keyword_nan =
    Ok (mkConstant LiteralType.int "nan" (1, 1) (1, 4) VNull, advance keyword_nan).
Proof.
  split; [reflexivity|]. split; [reflexivity|].
  exact (parse_bare_keyword keyword_nan (advance keyword_nan) eq_refl
           (or_intror eq_refl)).
Defined.

(** The [boolean] node of the keyword [true]: one token read, with the
    text [true], and not a string token. *)
Lemma parse_kind_origin_witness :
  scan keyword_true = Ok (Token.keyword, advance keyword_true) /\
  parse keyword_true =
    Ok (mkConstant LiteralType.boolean "true" (1, 1) (1, 5) (VBoolean true),
        advance keyword_true) /\
  advance keyword_true = advance keyword_true /\
  "true" = contents (advance keyword_true) /\
  Token.keyword <> Token.string /\
  (contents (advance keyword_true) = "true" \/
   (contents (advance keyword_true) = "false" /\ Token.keyword = Token.identifier)).
Proof.
  split; [reflexivity|]. split; [reflexivity|].
  exact (parse_kind_origin keyword_true (advance keyword_true)
           (advance keyword_true) Token.keyword
           (mkConstant LiteralType.boolean "true" (1, 1) (1, 5) (VBoolean true))
           eq_refl eq_refl).
Defined.

(** The digits [42], and [9007199254740993], which is [2^53 + 1] and
    reads as [2^53]. *)
Lemma decimal_literal_value_witness :
  all_decimal_digits "42" = true /\
  value (new_Constant LiteralType.int "42" default_pos default_pos)
  = VNumber (JS.Finite false (42 * 2 ^ 47) (-47)) /\
  value (new_Constant LiteralType.int "9007199254740993" default_pos default_pos)
  = VNumber (JS.Finite false (2 ^ 52) 1).
Proof.
  assert (Hne : "42" <> EmptyString) by discriminate.
  assert (Hne' : "9007199254740993" <> EmptyString) by discriminate.
  split; [reflexivity|]. split.
  - destruct (decimal_literal_value LiteralType.int "42" default_pos default_pos
                (or_introl eq_refl) eq_refl Hne) as (_ & _ & Hbelow & _).
    apply Hbelow. apply N.ltb_lt. vm_compute. reflexivity.
  - destruct (decimal_literal_value LiteralType.int "9007199254740993"
                default_pos default_pos (or_introl eq_refl) eq_refl Hne')
      as (_ & _ & Hbelow & _).
    apply Hbelow. apply N.ltb_lt. vm_compute. reflexivity.
Defined.

Lemma short_decimal_literal_not_null_witness :
  all_decimal_digits "007" = true /\
  String.length "007" <= 308 /\
  value (new_Constant LiteralType.float "007" default_pos default_pos)
  = VNumber (JS.Finite false (7 * 2 ^ 50) (-50)).
Proof.
  assert (Hne : "007" <> EmptyString) by discriminate.
  assert (Hlen : String.length "007" <= 308) by (simpl; lia).
  split; [reflexivity|]. split; [exact Hlen|].
  exact (proj1 (short_decimal_literal_not_null LiteralType.float "007" default_pos
                  default_pos (or_intror eq_refl) eq_refl Hne Hlen)).
Defined.

(** A node and its dump. *)
Lemma toJSON_faithful_witness :
  json_raw (toJSON (new_Constant LiteralType.boolean "true" (1, 1) (1, 5)))
  = "true" /\
  json_type (toJSON (new_Constant LiteralType.boolean "true" (1, 1) (1, 5)))
  = "Constant".
Proof.
  exact (proj2 (toJSON_faithful
                  (new_Constant LiteralType.boolean "true" (1, 1) (1, 5))
                  (new_Constant LiteralType.boolean "true" (1, 1) (1, 5))
                  eq_refl)).
Defined.

(** A generic hook that throws keeps the counting hook from running. *)
Lemma accept_hooks_in_order_witness :
  accept (new_Constant LiteralType.boolean "true" (1, 1) (1, 5))
         throwing_visitor 0
  = Raised "stop".
Proof.
  exact (proj1 (proj2
           (accept_hooks_in_order
              (new_Constant LiteralType.boolean "true" (1, 1) (1, 5)) 0
              (fun _ _ => Raised "stop")))
           "stop" eq_refl (Some (fun _ n => Returned (S n)))).
Defined.
